(** * http::SinkBase, http::ServerSink, http::ClientSink (http/sink.hpp)

    A shallow embedding of the sink interface of libhttp and the properties
    of its value types, of its forwarding member functions and of the
    virtual primitives they dispatch to. *)

From Stdlib Require Import List String Ascii ZArith NArith Lia Bool.
From Stdlib.Strings Require Import Byte.
From Stdlib Require Import Permutation Sorted.
Import ListNotations.

Set Implicit Arguments.
Local Open Scope string_scope.

(** ** Machine types *)

(** [std::size_t]: an unsigned 64-bit integer, carried by [N]; products wrap
    around. *)
Definition size_t : Type := N.
Definition size_t_bits : N := 64.
Definition size_t_modulus : N := 2 ^ size_t_bits.
Definition size_t_mul (a b : size_t) : size_t := ((a * b) mod size_t_modulus)%N.

(** [std::time_t]: a signed integer. *)
Definition time_t : Type := Z.

(** [const void *]: a pointer is modelled by the bytes that are stored from
    the address it holds to the end of the array it points into. *)
Definition void_ptr : Type := list byte.

(** ** std::string *)

Module StdString.

(** [s.size()] *)
Definition size (s : string) : size_t := N.of_nat (String.length s).

(** The characters of [s], as bytes. *)
Definition bytes (s : string) : list byte := list_byte_of_string s.

(** [s.data()]: the characters are followed by a terminating zero. *)
Definition data (s : string) : void_ptr := (bytes s ++ [x00])%list.

(** [a < b] on [std::string]: [char_traits<char>] compares characters as
    unsigned values, and a proper prefix is smaller. *)
Definition lt (a b : string) : bool := String.ltb a b.

End StdString.

(** ** std::vector<T> *)

(** What the template argument [T] of [content(const std::vector<T> &, ...)]
    has to provide: its size and its object representation. *)
Class ObjectType (T : Type) : Type := {
  sizeof : size_t;
  object_repr : T -> list byte;
  sizeof_pos : (0 < sizeof)%N;
  object_repr_length : forall x : T, N.of_nat (List.length (object_repr x)) = sizeof
}.

Module StdVector.
Section Vector.
Context {T : Type} `{ObjectType T}.

(** [v.size()] *)
Definition size (v : list T) : size_t := N.of_nat (List.length v).

(** The object representations of the elements, one after the other. *)
Definition bytes (v : list T) : list byte := flat_map object_repr v.

(** [v.data()] *)
Definition data (v : list T) : void_ptr := bytes v.
End Vector.
End StdVector.

(** ** SinkBase::FileInfo *)

Module FileInfo.

Record t : Type := Build {
  contentType : string;   (* File content type. *)
  lastModified : time_t;  (* Timestamp of last modification. -1 means now. *)
  expires : time_t        (* Timestamp of expiration, -1 means never *)
}.

(** The sentinels the member comments name. *)
Definition now : time_t := (-1)%Z.
Definition never : time_t := (-1)%Z.

(** The constructor; an argument that is left out is [None]. *)
Definition FileInfo (contentType : option string)
    (lastModified : option time_t) (expires : option time_t) : t :=
  {| contentType :=
       match contentType with Some c => c | None => "application/octet-stream" end;
     lastModified :=
       match lastModified with Some m => m | None => (-1)%Z end;
     expires :=
       match expires with Some e => e | None => (-1)%Z end |}.

(** [FileInfo()] *)
Definition default : t := FileInfo None None None.

End FileInfo.

(** ** ServerSink::ListingItem *)

Module ListingItem.

(** [enum class Type { dir, file }] *)
Inductive Type_ : Type := dir | file.

(** The value of an enumerator. *)
Definition Type_value (k : Type_) : Z :=
  match k with dir => 0%Z | file => 1%Z end.

(** [a < b] on the enumeration compares the values. *)
Definition Type_lt (a b : Type_) : bool := (Type_value a <? Type_value b)%Z.

Record t : Type := Build {
  name : string;
  type : Type_
}.

(** The constructor; an argument that is left out is [None]. *)
Definition ListingItem (name : option string) (type : option Type_) : t :=
  {| name := match name with Some n => n | None => "" end;
     type := match type with Some k => k | None => file end |}.

(** [bool operator<(const ListingItem &o) const] *)
Definition lt (self o : t) : bool :=
  if Type_lt (type self) (type o) then true
  else if Type_lt (type o) (type self) then false
  else StdString.lt (name self) (name o).

End ListingItem.

(** [typedef std::vector<ListingItem> Listing] *)
Definition Listing : Type := list ListingItem.t.

(** *** Sorting a listing by [operator<] *)

Module ListingOrder.

(** The postcondition of a sort by [operator<] on its output: no element is
    smaller than one that comes before it. *)
Definition ordered : Listing -> Prop :=
  StronglySorted (fun a b => ListingItem.lt b a = false).

(** Insertion of an item before the first item it is smaller than. *)
Fixpoint insert (x : ListingItem.t) (l : Listing) : Listing :=
  match l with
  | [] => [x]
  | y :: l' => if ListingItem.lt x y then x :: l else y :: insert x l'
  end.

(** A sort that compares with [operator<] only. *)
Definition sort (l : Listing) : Listing := fold_right insert [] l.

(** The listing of the example and the order it has to be rendered in. *)
Definition example_input : Listing :=
  [ ListingItem.Build "b" ListingItem.file;
    ListingItem.Build "a" ListingItem.dir;
    ListingItem.Build "z" ListingItem.dir;
    ListingItem.Build "a" ListingItem.file ].

Definition example_output : Listing :=
  [ ListingItem.Build "a" ListingItem.dir;
    ListingItem.Build "z" ListingItem.dir;
    ListingItem.Build "a" ListingItem.file;
    ListingItem.Build "b" ListingItem.file ].

End ListingOrder.

(** ** Exceptions and effects *)

(** [std::exception_ptr]: an exception object whose static type has been
    erased; the type travels with the object. *)
Record exception_ptr : Type := ExceptionPtr {
  exception_type : Type;
  exception_object : exception_type
}.

(** [std::make_exception_ptr(e)] *)
Definition make_exception_ptr {T : Type} (e : T) : exception_ptr :=
  ExceptionPtr e.

(** How a call ends: it returns a value or it leaves by an exception. *)
Inductive Outcome (A : Type) : Type :=
| Returned (a : A)
| Thrown (e : exception_ptr).
Arguments Thrown {A} e.

(** A member function that may change the state [S] of its object: the
    state it leaves behind is kept whichever way the call ends. *)
Definition M (S A : Type) : Type := S -> Outcome A * S.

Definition ret {S A : Type} (a : A) : M S A := fun s => (Returned a, s).

Definition throw {S A T : Type} (e : T) : M S A :=
  fun s => (Thrown (make_exception_ptr e), s).

Definition bind {S A B : Type} (m : M S A) (f : A -> M S B) : M S B :=
  fun s =>
    match m s with
    | (Returned a, s') => f a s'
    | (Thrown e, s') => (Thrown e, s')
    end.

(** A [const] member function reads the state and leaves it as it is. *)
Definition const_call {S A : Type} (f : S -> Outcome A) : M S A :=
  fun s => (f s, s).

Module Error.

(** Modelled from the spec: http/error.hpp, which declares the exception
    types, is not among the sources.  The spec names two distinguished
    kinds, Not Modified and Request Aborted; sink.hpp constructs the first
    from a message. *)
Record NotModified : Type := NotModified_ { NotModified_what : string }.

(** Modelled from the spec: http/error.hpp is not among the sources; the
    "request aborted" condition of the spec, which gives it no payload. *)
Inductive RequestAborted : Type := RequestAborted_.

End Error.

(** ** SinkBase::DataSource *)

Module DataSource.

(** An object: the private member of the base class and the part a derived
    class adds. *)
Record t (D : Type) : Type := {
  hasContentLength_ : bool;
  derived : D
}.

(** The virtual member functions of a derived class.  They have the whole
    object before them: the member of the base class is private, but
    [hasContentLength()] reads it and the copy assignment of the base class,
    which is declared implicitly and is public, writes it.  [read] is the one
    of them that is not [const] and may change the object.  [name] and
    [close] have a body in the base class: [None] is a derived class that
    does not override them. *)
Record vtable (D : Type) : Type := {
  stat : t D -> Outcome FileInfo.t;
  (* read(buf, size, off): the bytes stored into buf; their number is
     the value returned *)
  read : size_t -> size_t -> M (t D) (list byte);
  name_override : option (t D -> Outcome string);
  close_override : option (t D -> Outcome unit);
  size : t D -> Outcome Z
}.

Section Members.
Context {D : Type} (vt : vtable D).

(** [DataSource(bool hasContentLength = true)]; the argument, when it is
    left out, is [None]. *)
Definition DataSource (hasContentLength : option bool) (d : D) : t D :=
  {| hasContentLength_ :=
       match hasContentLength with Some b => b | None => true end;
     derived := d |}.

(** [bool hasContentLength() const] *)
Definition hasContentLength (self : t D) : bool := hasContentLength_ self.

(** [DataSource &operator=(const DataSource &)]: the class declares none
    and deletes none, so the copy assignment is declared implicitly, public.
    It copies the member of the base class from an object of any derived
    class and leaves the part of the derived class as it is. *)
Definition assign {D' : Type} (other : t D') (self : t D) : t D :=
  {| hasContentLength_ := hasContentLength_ other; derived := derived self |}.

(** [virtual std::string name() const] *)
Definition name (self : t D) : Outcome string :=
  match name_override vt with
  | Some f => f self
  | None => Returned "unknown"
  end.

(** [virtual void close() const] *)
Definition close (self : t D) : Outcome unit :=
  match close_override vt with
  | Some f => f self
  | None => Returned tt
  end.

(** The calls of the public interface and what they give back. *)
Inductive Call : Type :=
| call_stat
| call_read (size off : size_t)
| call_name
| call_close
| call_size
| call_hasContentLength
| call_assign (D' : Type) (other : t D').

Inductive Value : Type :=
| value_stat (r : Outcome FileInfo.t)
| value_read (r : Outcome (list byte))
| value_name (r : Outcome string)
| value_close (r : Outcome unit)
| value_size (r : Outcome Z)
| value_hasContentLength (r : bool)
| value_assign.

(** One call on an object: what it gives back and the object after it. *)
Definition call (c : Call) (self : t D) : Value * t D :=
  match c with
  | call_stat => (value_stat (stat vt self), self)
  | call_read n off =>
      let (r, self') := read vt n off self in (value_read r, self')
  | call_name => (value_name (name self), self)
  | call_close => (value_close (close self), self)
  | call_size => (value_size (size vt self), self)
  | call_hasContentLength =>
      (value_hasContentLength (hasContentLength self), self)
  | call_assign other => (value_assign, assign other self)
  end.

(** A sequence of calls, from the first to the last. *)
Fixpoint calls (cs : list Call) (self : t D) : list Value * t D :=
  match cs with
  | [] => ([], self)
  | c :: cs' =>
      let (v, self') := call c self in
      let (vs, self'') := calls cs' self' in
      (v :: vs, self'')
  end.

(** [read] of the derived class does not assign to the object. *)
Definition read_keeps_base : Prop :=
  forall (n off : size_t) (self : t D),
    hasContentLength_ (snd (read vt n off self)) = hasContentLength_ self.
End Members.

(** [v] is not a value of [hasContentLength()] other than [b]. *)
Definition reports (b : bool) (v : Value) : Prop :=
  match v with
  | value_hasContentLength r => r = b
  | _ => True
  end.

Definition is_assignment (c : Call) : bool :=
  match c with call_assign _ => true | _ => false end.

(** The flag of the object that was assigned last in a sequence of calls,
    and [b] when there was no assignment. *)
Definition last_assigned (b : bool) (cs : list Call) : bool :=
  fold_left
    (fun flag c =>
       match c with
       | call_assign other => hasContentLength_ other
       | _ => flag
       end)
    cs b.

End DataSource.

(** ** SinkBase *)

Module SinkBase.

(** The pure virtual member functions, over the state [S] of the object. *)
Record vtable (S : Type) : Type := {
  content_impl : void_ptr -> size_t -> FileInfo.t -> bool -> M S unit;
  error_impl : exception_ptr -> M S unit;
  seeOther_impl : string -> M S unit
}.

Section Members.
Context {S : Type} (self : vtable S).

(** [void content(const std::string &data, const FileInfo &stat)] *)
Definition content_string (data : string) (stat : FileInfo.t) : M S unit :=
  content_impl self (StdString.data data) (StdString.size data) stat true.

(** [void content(const void *data, std::size_t size,
                  const FileInfo &stat, bool needCopy)] *)
Definition content (data : void_ptr) (size : size_t) (stat : FileInfo.t)
    (needCopy : bool) : M S unit :=
  content_impl self data size stat needCopy.

(** [template <typename T>
     void content(const std::vector<T> &data, const FileInfo &stat)] *)
Definition content_vector {T : Type} `{ObjectType T} (data : list T)
    (stat : FileInfo.t) : M S unit :=
  content_impl self (StdVector.data data)
    (size_t_mul (StdVector.size data) sizeof) stat true.

(** [void seeOther(const std::string &url)] *)
Definition seeOther (url : string) : M S unit := seeOther_impl self url.

(** [void error(const std::exception_ptr &exc)] *)
Definition error_ptr (exc : exception_ptr) : M S unit := error_impl self exc.

(** [template <typename T> void error(const T &exc)] *)
Definition error {T : Type} (exc : T) : M S unit :=
  error_impl self (make_exception_ptr exc).
End Members.

End SinkBase.


(** The terminal operations of the public interface of [SinkBase], as
    values, so that sequences of calls can be run on one sink. *)
Inductive Terminal : Type :=
| terminal_content_string (data : string) (stat : FileInfo.t)
| terminal_content (data : void_ptr) (size : size_t) (stat : FileInfo.t)
    (needCopy : bool)
| terminal_content_vector (T : Type) (OT : ObjectType T) (data : list T)
    (stat : FileInfo.t)
| terminal_error_ptr (exc : exception_ptr)
| terminal_error (T : Type) (exc : T)
| terminal_seeOther (url : string).

Definition invoke {S : Type} (self : SinkBase.vtable S) (op : Terminal)
    : M S unit :=
  match op with
  | terminal_content_string data stat => SinkBase.content_string self data stat
  | terminal_content data size stat needCopy =>
      SinkBase.content self data size stat needCopy
  | terminal_content_vector OT data stat =>
      SinkBase.content_vector self data stat
  | terminal_error_ptr exc => SinkBase.error_ptr self exc
  | terminal_error exc => SinkBase.error self exc
  | terminal_seeOther url => SinkBase.seeOther self url
  end.

(** The operations of a list, one after the other on the same sink, whichever
    way each of them ends; the outcomes are listed in the order of the
    calls. *)
Fixpoint invoke_all {S : Type} (self : SinkBase.vtable S) (ops : list Terminal)
    (s : S) : list (Outcome unit) * S :=
  match ops with
  | [] => ([], s)
  | op :: ops' =>
      let (r, s') := invoke self op s in
      let (rs, s'') := invoke_all self ops' s' in
      (r :: rs, s'')
  end.

Definition returned {A : Type} (r : Outcome A) : bool :=
  match r with Returned _ => true | Thrown _ => false end.

(** The rule of an exchange, for a primitive [p] and a test [done] of the
    state that tells whether a response has been given: once [done] holds
    [p] fails and [done] stays, and [done] holds after [p] when it
    returns. *)
Definition keeps_rule {S : Type} (done : S -> bool) (p : M S unit) : Prop :=
  forall s : S,
    (done s = true -> returned (fst (p s)) = false /\ done (snd (p s)) = true)
    /\ (returned (fst (p s)) = true -> done (snd (p s)) = true).

(** ** ServerSink *)

Module ServerSink.

(** The pure virtual member functions [ServerSink] adds, next to those of
    its base class.  [Source] stands for [DataSource::pointer] and
    [Callback] for [AbortedCallback]; [checkAborted_impl] is [const]. *)
Record vtable (S Source Callback : Type) : Type := {
  base : SinkBase.vtable S;
  content_impl : Source -> M S unit;
  listing_impl : Listing -> M S unit;
  checkAborted_impl : S -> bool;
  setAborter_impl : Callback -> M S unit
}.

Section Members.
Context {S Source Callback : Type} (self : vtable S Source Callback).

(** [void content(const DataSource::pointer &source)] *)
Definition content (source : Source) : M S unit := content_impl self source.

(** [void listing(const Listing &list)] *)
Definition listing (list : Listing) : M S unit := listing_impl self list.

(** [void setAborter(const AbortedCallback &ac)] *)
Definition setAborter (ac : Callback) : M S unit := setAborter_impl self ac.

(** Modelled from the spec: the body of [void checkAborted() const] is not
    in sink.hpp, which only declares it ("Throws RequestAborted exception
    when true").  Spec 4.4: if the transport has detected the disconnection
    of the client the call fails with the request aborted condition,
    otherwise it returns normally with no side effect. *)
Definition checkAborted : M S unit :=
  const_call (fun s =>
    if checkAborted_impl self s
    then Thrown (make_exception_ptr Error.RequestAborted_)
    else Returned tt).
End Members.

End ServerSink.

(** ** ClientSink *)

Module ClientSink.

(** [notModified_impl] is virtual with a body: [None] is a class that does
    not override it. *)
Record vtable (S : Type) : Type := {
  base : SinkBase.vtable S;
  notModified_impl_override : option (M S unit)
}.

Section Members.
Context {S : Type} (self : vtable S).

(** [void ClientSink::notModified_impl()], the body of the base class *)
Definition notModified_impl : M S unit :=
  SinkBase.error (base self) (Error.NotModified_ "Not Modified").

(** The call [notModified_impl()] through the virtual table. *)
Definition virtual_notModified_impl : M S unit :=
  match notModified_impl_override self with
  | Some overrider => overrider
  | None => notModified_impl
  end.

(** [void notModified()] *)
Definition notModified : M S unit := virtual_notModified_impl.
End Members.

End ClientSink.

(** ** Observing the calls of the primitives *)

Module Trace.

(** A call of one of the primitives of [SinkBase], with its arguments. *)
Inductive Call : Type :=
| call_content_impl (data : void_ptr) (size : size_t) (stat : FileInfo.t)
    (needCopy : bool)
| call_error_impl (exc : exception_ptr)
| call_seeOther_impl (url : string).

(** [m], and the call [c] appended to the calls seen so far. *)
Definition logged {S A : Type} (c : Call) (m : M S A) : M (S * list Call) A :=
  fun sl =>
    let (r, s') := m (fst sl) in (r, (s', (snd sl ++ [c])%list)).

(** [m], which is no call of a primitive of [SinkBase]. *)
Definition unlogged {S A : Type} (m : M S A) : M (S * list Call) A :=
  fun sl => let (r, s') := m (fst sl) in (r, (s', snd sl)).

(** Any sink, with every call of a primitive written down. *)
Definition traced {S : Type} (k : SinkBase.vtable S)
    : SinkBase.vtable (S * list Call) :=
  {| SinkBase.content_impl data size stat needCopy :=
       logged (call_content_impl data size stat needCopy)
              (SinkBase.content_impl k data size stat needCopy);
     SinkBase.error_impl exc :=
       logged (call_error_impl exc) (SinkBase.error_impl k exc);
     SinkBase.seeOther_impl url :=
       logged (call_seeOther_impl url) (SinkBase.seeOther_impl k url) |}.

Definition traced_client {S : Type} (k : ClientSink.vtable S)
    : ClientSink.vtable (S * list Call) :=
  {| ClientSink.base := traced (ClientSink.base k);
     ClientSink.notModified_impl_override :=
       option_map unlogged (ClientSink.notModified_impl_override k) |}.

Definition is_error_call (c : Call) : bool :=
  match c with call_error_impl _ => true | _ => false end.

End Trace.

(** ** The sink of one exchange *)

Module Exchange.

(** Modelled from the spec: the classes of the protocol engine that
    implement the primitives are not among the sources.  Spec 4.3: a
    terminal operation makes the transport commit a response, and a second
    terminal operation is rejected by failing loudly, because the transport
    has already committed a response.  Spec 4.4: the transport flags the
    disconnection of the client. *)
Inductive Response : Type :=
| content_response (body : list byte) (stat : FileInfo.t)
| error_response (exc : exception_ptr)
| redirect_response (url : string).

(** Modelled from the spec: the state of the missing implementation, the
    response the transport has committed, if any, the disconnection flag
    and the registered abort callback. *)
Record State : Type := {
  committed : option Response;
  disconnected : bool;
  aborter : option nat
}.

(** Modelled from the spec: the loud failure of a second terminal
    operation. *)
Inductive AlreadyCommitted : Type := AlreadyCommitted_.

(** Modelled from the spec: a terminal operation commits its response
    unless one is committed already, in which case it is rejected. *)
Definition commit (r : Response) : M State unit :=
  fun s =>
    match committed s with
    | Some _ => throw AlreadyCommitted_ s
    | None =>
        (Returned tt,
         {| committed := Some r;
            disconnected := disconnected s;
            aborter := aborter s |})
    end.

(** Modelled from the spec: whether the transport has committed a
    response. *)
Definition done (s : State) : bool :=
  match committed s with Some _ => true | None => false end.

(** Modelled from the spec: how a rejected terminal operation ends. *)
Definition rejected : Outcome unit :=
  Thrown (make_exception_ptr AlreadyCommitted_).

(** Modelled from the spec: the three primitives of [SinkBase] of the
    missing implementation; each of them is terminal. *)
Definition sink : SinkBase.vtable State :=
  {| SinkBase.content_impl data size stat needCopy :=
       commit (content_response (firstn (N.to_nat size) data) stat);
     SinkBase.error_impl exc := commit (error_response exc);
     SinkBase.seeOther_impl url := commit (redirect_response url) |}.

(** Modelled from the spec: the state of a sink when the protocol engine
    hands it out for an exchange. *)
Definition fresh : State :=
  {| committed := None; disconnected := false; aborter := None |}.

(** Modelled from the spec: the transport flags the disconnection of the
    client. *)
Definition disconnect (s : State) : State :=
  {| committed := committed s; disconnected := true; aborter := aborter s |}.

(** Modelled from the spec: the server side of the missing implementation.
    A source is a list of bytes with its metadata, a callback is known by
    a number, and [checkAborted_impl] reports the flag of the transport. *)
Definition server : ServerSink.vtable State (list byte * FileInfo.t) nat :=
  {| ServerSink.base := sink;
     ServerSink.content_impl source :=
       commit (content_response (fst source) (snd source));
     ServerSink.listing_impl list :=
       commit (content_response [] FileInfo.default);
     ServerSink.checkAborted_impl := disconnected;
     ServerSink.setAborter_impl ac := fun s =>
       (Returned tt,
        {| committed := committed s;
           disconnected := disconnected s;
           aborter := Some ac |}) |}.

(** Modelled from the spec: the client side of the missing implementation,
    with [notModified_impl] as the base class has it. *)
Definition client : ClientSink.vtable State :=
  {| ClientSink.base := sink; ClientSink.notModified_impl_override := None |}.

End Exchange.

(** ** Element types for [content(const std::vector<T> &, ...)] *)

(** [char]: one byte. *)
#[export] Instance ObjectType_char : ObjectType byte.
Proof.
  refine {| sizeof := 1%N; object_repr := fun c => [c] |}.
  - reflexivity.
  - intros x; reflexivity.
Defined.

(** [std::uint32_t]: four bytes, the least significant first. *)
Record uint32_t : Type := UInt32 { uint32_value : N }.

Definition low_byte (n : N) : byte := byte_of_ascii (ascii_of_N (n mod 256)).

#[export] Instance ObjectType_uint32_t : ObjectType uint32_t.
Proof.
  refine {| sizeof := 4%N;
            object_repr := fun x =>
              [ low_byte (uint32_value x);
                low_byte (uint32_value x / 256);
                low_byte (uint32_value x / 65536);
                low_byte (uint32_value x / 16777216) ] |}.
  - reflexivity.
  - intros x; reflexivity.
Defined.

(** ** Kinds and names in a listing *)

Module ListingParts.

Definition is_dir (x : ListingItem.t) : bool :=
  match ListingItem.type x with
  | ListingItem.dir => true
  | ListingItem.file => false
  end.

Definition is_file (x : ListingItem.t) : bool :=
  match ListingItem.type x with
  | ListingItem.dir => false
  | ListingItem.file => true
  end.

(** No name is smaller, by [<] on [std::string], than one before it. *)
Definition names_ascending : Listing -> Prop :=
  StronglySorted
    (fun a b => StdString.lt (ListingItem.name b) (ListingItem.name a) = false).

End ListingParts.

(** ** What is handed to [content_impl] *)

Module Primitive.

(** What a call of [content_impl] asks the sink to send: the first [size]
    bytes at [data], with [stat] and [needCopy]. *)
Definition delivery (c : Trace.Call) : option (list byte * FileInfo.t * bool) :=
  match c with
  | Trace.call_content_impl data size stat needCopy =>
      Some (firstn (N.to_nat size) data, stat, needCopy)
  | _ => None
  end.

End Primitive.

(** ** Examples of data sources *)

Module MemorySource.

(** An example of a class derived from [DataSource]: it holds its bytes,
    counts the calls of [read] and overrides neither [name] nor [close]. *)
Record State : Type := {
  held : list byte;
  reads : nat
}.

Definition vt : DataSource.vtable State :=
  {| DataSource.stat := fun _ => Returned FileInfo.default;
     DataSource.read := fun n off self =>
       (Returned
          (firstn (N.to_nat n)
             (skipn (N.to_nat off) (held (DataSource.derived self)))),
        {| DataSource.hasContentLength_ := DataSource.hasContentLength_ self;
           DataSource.derived :=
             {| held := held (DataSource.derived self);
                reads := Datatypes.S (reads (DataSource.derived self)) |} |});
     DataSource.name_override := None;
     DataSource.close_override := None;
     DataSource.size := fun self =>
       Returned (Z.of_nat (List.length (held (DataSource.derived self)))) |}.

Definition hi : State := {| held := [x68; x69]; reads := 0 |}.

End MemorySource.

Module ResettingSource.

(** An example of a derived class whose [read] assigns to the object: it
    constructs a source with [hasContentLength = false] and copies it over
    its own base class, [DataSource::operator=(ResettingSource(false))]. *)
Definition vt : DataSource.vtable unit :=
  {| DataSource.stat := fun _ => Returned FileInfo.default;
     DataSource.read := fun n off self =>
       (Returned [],
        DataSource.assign (DataSource.DataSource (Some false) tt) self);
     DataSource.name_override := None;
     DataSource.close_override := None;
     DataSource.size := fun _ => Returned (-1)%Z |}.

End ResettingSource.

(** * Properties *)

(** ** The order of listing items *)

Module StdStringFacts.

Lemma ascii_compare_refl (c : ascii) : Ascii.compare c c = Eq.
Proof. unfold Ascii.compare. apply N.compare_refl. Qed.

Lemma ascii_compare_lt_trans (a b c : ascii) :
  Ascii.compare a b = Lt -> Ascii.compare b c = Lt -> Ascii.compare a c = Lt.
Proof.
  unfold Ascii.compare. rewrite !N.compare_lt_iff. apply N.lt_trans.
Qed.

Lemma compare_refl (s : string) : String.compare s s = Eq.
Proof.
  induction s as [|c s IH]; simpl; [reflexivity|].
  now rewrite ascii_compare_refl.
Qed.

Lemma compare_lt_trans (a : string) :
  forall b c, String.compare a b = Lt -> String.compare b c = Lt ->
              String.compare a c = Lt.
Proof.
  induction a as [|x a IH]; intros [|y b] [|z c]; simpl; try easy.
  destruct (Ascii.compare x y) eqn:Exy; try discriminate;
    destruct (Ascii.compare y z) eqn:Eyz; try discriminate; intros Hab Hbc.
  - apply Ascii.compare_eq_iff in Exy, Eyz. subst.
    rewrite ascii_compare_refl. eauto.
  - apply Ascii.compare_eq_iff in Exy. subst. now rewrite Eyz.
  - apply Ascii.compare_eq_iff in Eyz. subst. now rewrite Exy.
  - now rewrite (ascii_compare_lt_trans _ _ _ Exy Eyz).
Qed.

(** [<] on strings is the lexicographic order of the characters. *)
Lemma string_lt_lexicographic :
  (forall s, StdString.lt s EmptyString = false)
  /\ (forall c s, StdString.lt EmptyString (String c s) = true)
  /\ (forall c d s t,
         StdString.lt (String c s) (String d t)
         = if (N_of_ascii c <? N_of_ascii d)%N then true
           else if (N_of_ascii d <? N_of_ascii c)%N then false
           else StdString.lt s t).
Proof.
  unfold StdString.lt, String.ltb. split; [|split].
  - now intros [|c s].
  - reflexivity.
  - intros c d s t. simpl. unfold Ascii.compare.
    destruct (N.compare_spec (N_of_ascii c) (N_of_ascii d)) as [E|L|G].
    + rewrite E, N.ltb_irrefl. reflexivity.
    + apply N.ltb_lt in L. now rewrite L.
    + assert ((N_of_ascii c <? N_of_ascii d)%N = false) as ->
        by (apply N.ltb_ge; lia).
      apply N.ltb_lt in G. now rewrite G.
Qed.

Lemma string_lt_irrefl (s : string) : StdString.lt s s = false.
Proof. unfold StdString.lt, String.ltb. now rewrite compare_refl. Qed.

Lemma string_lt_trans (a b c : string) :
  StdString.lt a b = true -> StdString.lt b c = true -> StdString.lt a c = true.
Proof.
  unfold StdString.lt, String.ltb.
  destruct (String.compare a b) eqn:Eab; try discriminate.
  destruct (String.compare b c) eqn:Ebc; try discriminate.
  now rewrite (compare_lt_trans _ _ _ Eab Ebc).
Qed.

Lemma string_lt_asym (a b : string) :
  StdString.lt a b = true -> StdString.lt b a = false.
Proof.
  unfold StdString.lt, String.ltb. rewrite (String.compare_antisym a b).
  now destruct (String.compare b a).
Qed.

Lemma string_lt_connected (a b : string) :
  StdString.lt a b = false -> StdString.lt b a = false -> a = b.
Proof.
  unfold StdString.lt, String.ltb. rewrite (String.compare_antisym a b).
  destruct (String.compare b a) eqn:E; simpl; try discriminate.
  intros _ _. symmetry. now apply String.compare_eq_iff.
Qed.

Lemma size_length (s : string) :
  StdString.size s = N.of_nat (List.length (StdString.bytes s)).
Proof.
  unfold StdString.size, StdString.bytes, list_byte_of_string.
  rewrite List.length_map. f_equal.
  induction s as [|c s IH]; simpl; congruence.
Qed.

Lemma data_prefix (s : string) :
  firstn (N.to_nat (StdString.size s)) (StdString.data s) = StdString.bytes s.
Proof.
  rewrite size_length, Nat2N.id. unfold StdString.data.
  rewrite firstn_app, Nat.sub_diag, firstn_all. simpl. apply app_nil_r.
Qed.

End StdStringFacts.

Module ListingItemFacts.
Import ListingItem.

Lemma item_lt_irrefl (a : t) : lt a a = false.
Proof.
  unfold lt. destruct (type a); simpl; apply StdStringFacts.string_lt_irrefl.
Qed.

Lemma item_lt_asym (a b : t) : lt a b = true -> lt b a = false.
Proof.
  unfold lt. destruct a as [n [|]], b as [m [|]]; simpl; try easy;
    apply StdStringFacts.string_lt_asym.
Qed.

Lemma item_lt_trans (a b c : t) : lt a b = true -> lt b c = true -> lt a c = true.
Proof.
  unfold lt. destruct a as [n [|]], b as [m [|]], c as [p [|]]; simpl;
    try easy; apply StdStringFacts.string_lt_trans.
Qed.

(** Two items neither of which is smaller than the other are the same
    item: the order is total. *)
Lemma item_lt_connected (a b : t) : lt a b = false -> lt b a = false -> a = b.
Proof.
  unfold lt. destruct a as [n [|]], b as [m [|]]; simpl; try easy;
    intros H1 H2; f_equal; now apply StdStringFacts.string_lt_connected.
Qed.

Lemma not_lt_trans (a b c : t) :
  lt b a = false -> lt c b = false -> lt c a = false.
Proof.
  intros Hba Hcb. destruct (lt c a) eqn:Hca; [|reflexivity].
  destruct (lt a b) eqn:Hab.
  - now rewrite (item_lt_trans _ _ _ Hca Hab) in Hcb.
  - rewrite (item_lt_connected _ _ Hab Hba) in Hca. congruence.
Qed.

Example dir_z_before_file_a :
  lt (Build "z" dir) (Build "a" file) = true
  /\ lt (Build "a" file) (Build "z" dir) = false.
Proof. split; reflexivity. Qed.

Example default_item_is_file_without_name :
  ListingItem None None = Build "" file.
Proof. reflexivity. Qed.

End ListingItemFacts.

Module ListingOrderFacts.
Import ListingOrder.

Lemma insert_permutation (x : ListingItem.t) (l : Listing) :
  Permutation (x :: l) (insert x l).
Proof.
  induction l as [|y l IH]; simpl; [reflexivity|].
  destruct (ListingItem.lt x y); [reflexivity|].
  rewrite perm_swap. now constructor.
Qed.

Lemma sort_permutation (l : Listing) : Permutation l (sort l).
Proof.
  induction l as [|x l IH]; simpl; [constructor|].
  rewrite <- insert_permutation. now constructor.
Qed.

Lemma insert_ordered (x : ListingItem.t) (l : Listing) :
  ordered l -> ordered (insert x l).
Proof.
  unfold ordered. induction l as [|y l IH]; simpl; intros Hl.
  - repeat constructor.
  - apply StronglySorted_inv in Hl. destruct Hl as [Hl Hy].
    destruct (ListingItem.lt x y) eqn:Hxy.
    + constructor; [now constructor|]. constructor.
      * now apply ListingItemFacts.item_lt_asym.
      * rewrite Forall_forall in *. intros z Hz.
        apply ListingItemFacts.not_lt_trans with y; [|auto].
        now apply ListingItemFacts.item_lt_asym.
    + constructor; [auto|].
      apply (Permutation_Forall (insert_permutation x l)).
      now constructor.
Qed.

Lemma sort_ordered (l : Listing) : ordered (sort l).
Proof.
  induction l as [|x l IH]; simpl; [constructor|].
  now apply insert_ordered.
Qed.

(** The order leaves one arrangement only: two ordered listings with the
    same items are the same listing. *)
Lemma ordered_unique (l1 : Listing) :
  forall l2, Permutation l1 l2 -> ordered l1 -> ordered l2 -> l1 = l2.
Proof.
  unfold ordered. induction l1 as [|x l1 IH]; intros l2 HP H1 H2.
  - now apply Permutation_nil in HP.
  - destruct l2 as [|y l2];
      [now apply Permutation_sym, Permutation_nil in HP|].
    apply StronglySorted_inv in H1, H2.
    destruct H1 as [H1 Hx], H2 as [H2 Hy].
    assert (x = y) as ->.
    { rewrite Forall_forall in Hx, Hy.
      assert (In y (x :: l1)) as Hin1
        by (apply (Permutation_in _ (Permutation_sym HP)); now left).
      assert (In x (y :: l2)) as Hin2
        by (apply (Permutation_in _ HP); now left).
      destruct Hin1 as [->|Hin1]; [reflexivity|].
      destruct Hin2 as [->|Hin2]; [reflexivity|].
      apply ListingItemFacts.item_lt_connected; auto. }
    f_equal. apply IH; auto. now apply Permutation_cons_inv in HP.
Qed.

End ListingOrderFacts.

(** C1. [operator<] of [ListingItem] puts every directory strictly before
    every file and compares two items of the same kind by their names,
    lexicographically; sorting the listing (file "b"), (dir "a"), (dir "z"),
    (file "a") by it gives (dir "a"), (dir "z"), (file "a"), (file "b"),
    with the insertion sort above and with any other sort, since no other
    arrangement of these items is ordered. *)
Theorem ListingItem_order_and_sorted_example :
  (forall n m : string,
      ListingItem.lt (ListingItem.Build n ListingItem.dir)
                     (ListingItem.Build m ListingItem.file) = true
      /\ ListingItem.lt (ListingItem.Build m ListingItem.file)
                        (ListingItem.Build n ListingItem.dir) = false)
  /\ (forall (k : ListingItem.Type_) (n m : string),
         ListingItem.lt (ListingItem.Build n k) (ListingItem.Build m k)
         = StdString.lt n m)
  /\ ListingOrder.sort ListingOrder.example_input = ListingOrder.example_output
  /\ (forall l : Listing,
         Permutation ListingOrder.example_input l ->
         ListingOrder.ordered l ->
         l = ListingOrder.example_output).
Proof.
  split; [|split; [|split]].
  - intros n m. split; reflexivity.
  - intros [|] n m; reflexivity.
  - reflexivity.
  - intros l HP Hl. symmetry.
    apply ListingOrderFacts.ordered_unique; [|exact (ListingOrderFacts.sort_ordered ListingOrder.example_input)|exact Hl].
    apply Permutation_trans with ListingOrder.example_input; [|exact HP].
    apply Permutation_sym.
    exact (ListingOrderFacts.sort_permutation ListingOrder.example_input).
Qed.

Lemma ListingItem_order_and_sorted_example_witness :
  Permutation ListingOrder.example_input
              (ListingOrder.sort ListingOrder.example_input)
  /\ ListingOrder.ordered (ListingOrder.sort ListingOrder.example_input)
  /\ ListingOrder.sort ListingOrder.example_input
     = ListingOrder.example_output.
Proof.
  assert (HP : Permutation ListingOrder.example_input
                 (ListingOrder.sort ListingOrder.example_input))
    by (vm_compute; apply Permutation_cons_append).
  assert (HO : ListingOrder.ordered
                 (ListingOrder.sort ListingOrder.example_input))
    by (vm_compute; repeat constructor).
  split; [exact HP|split; [exact HO|]].
  exact (proj2 (proj2 (proj2 ListingItem_order_and_sorted_example)) _ HP HO).
Defined.

(** ** FileInfo and DataSource *)

(** C8. A default-constructed [FileInfo] has the content type
    "application/octet-stream", [lastModified] equal to the "now" sentinel,
    -1, and [expires] equal to the "never" sentinel, -1. *)
Theorem FileInfo_default_members :
  FileInfo.contentType FileInfo.default = "application/octet-stream"
  /\ FileInfo.lastModified FileInfo.default = FileInfo.now
  /\ FileInfo.lastModified FileInfo.default = (-1)%Z
  /\ FileInfo.expires FileInfo.default = FileInfo.never
  /\ FileInfo.expires FileInfo.default = (-1)%Z.
Proof. repeat split. Qed.

Module DataSourceFacts.
Import DataSource.

Lemma last_assigned_without_assignment (cs : list Call) :
  forall b : bool, existsb is_assignment cs = false -> last_assigned b cs = b.
Proof.
  unfold last_assigned.
  induction cs as [|c cs IH]; intros b Hcs; simpl in *; [reflexivity|].
  apply orb_false_iff in Hcs. destruct Hcs as [Hc Hcs].
  destruct c; try discriminate; now apply IH.
Qed.

Section Calls.
Context {D : Type} (vt : vtable D).
Hypothesis read_does_not_assign : read_keeps_base vt.

(** The member after one call: the flag of the assigned object after an
    assignment, what it was after any other call. *)
Lemma call_hasContentLength_ (c : Call) (self : t D) :
  hasContentLength_ (snd (call vt c self))
  = last_assigned (hasContentLength_ self) [c].
Proof.
  destruct c; simpl; try reflexivity.
  pose proof (read_does_not_assign size0 off self) as Hread.
  now destruct (read vt size0 off self).
Qed.

Lemma call_reports (c : Call) (self : t D) :
  reports (hasContentLength_ self) (fst (call vt c self)).
Proof.
  destruct c; simpl; try exact I; try reflexivity.
  now destruct (read vt size0 off self).
Qed.

Lemma calls_hasContentLength_ (cs : list Call) :
  forall self : t D,
    hasContentLength_ (snd (calls vt cs self))
    = last_assigned (hasContentLength_ self) cs.
Proof.
  induction cs as [|c cs IH]; intros self; simpl; [reflexivity|].
  pose proof (call_hasContentLength_ c self) as Hc.
  destruct (call vt c self) as [v self']. simpl in Hc.
  specialize (IH self').
  destruct (calls vt cs self') as [vs self'']. simpl in *.
  rewrite IH, Hc. reflexivity.
Qed.

Lemma calls_report (cs : list Call) :
  forall self : t D,
    existsb is_assignment cs = false ->
    Forall (reports (hasContentLength_ self)) (fst (calls vt cs self)).
Proof.
  induction cs as [|c cs IH]; intros self Hcs; simpl; [constructor|].
  simpl in Hcs. apply orb_false_iff in Hcs. destruct Hcs as [Hc Hcs].
  pose proof (call_hasContentLength_ c self) as Hflag.
  pose proof (call_reports c self) as Hr.
  destruct (call vt c self) as [v self']. simpl in Hflag, Hr.
  specialize (IH self' Hcs).
  destruct (calls vt cs self') as [vs self'']. simpl in *.
  constructor; [exact Hr|].
  rewrite Hflag in IH.
  destruct c; try discriminate; exact IH.
Qed.
End Calls.

(** A derived class can reach the copy assignment from its [read]. *)
Example read_of_ResettingSource_clears_the_flag :
  hasContentLength
    (snd (calls ResettingSource.vt [call_read 16%N 0%N]
            (DataSource (Some true) tt)))
  = false.
Proof. reflexivity. Qed.

End DataSourceFacts.

(** The member is not fixed for the life of the object: a source that was
    constructed with [true] answers [false] after the copy assignment from a
    source that was constructed with [false], so that it is not the case
    that every sequence of calls of the public interface leaves what
    [hasContentLength()] returns as the constructor set it. *)
Lemma DataSource_copy_assignment_changes_hasContentLength :
  DataSource.hasContentLength
    (DataSource.DataSource (Some true) MemorySource.hi) = true
  /\ DataSource.hasContentLength
       (snd (DataSource.calls MemorySource.vt
               [DataSource.call_assign
                  (DataSource.DataSource (Some false) MemorySource.hi)]
               (DataSource.DataSource (Some true) MemorySource.hi)))
     = false
  /\ ~ (forall (D : Type) (vt : DataSource.vtable D) (b : bool) (d : D)
               (cs : list DataSource.Call),
           DataSource.hasContentLength
             (snd (DataSource.calls vt cs (DataSource.DataSource (Some b) d)))
           = b).
Proof.
  split; [reflexivity|split; [reflexivity|]].
  intros Hfixed.
  specialize (Hfixed MemorySource.State MemorySource.vt true MemorySource.hi
                [DataSource.call_assign
                   (DataSource.DataSource (Some false) MemorySource.hi)]).
  discriminate Hfixed.
Qed.

(** C9, as the code has it. What [hasContentLength()] returns is the
    boolean given to the constructor, and no declared member function
    changes it: after any sequence of calls of [stat], [read], [name],
    [close], [size] and [hasContentLength] of a derived class whose [read]
    does not assign to the object it still returns that boolean, and every
    call of it in the sequence returned it.  The copy assignment, which the
    class leaves declared implicitly and public, is the operation that
    changes it: after any sequence of calls, [hasContentLength()] returns
    the flag of the object that was assigned last, if any was. *)
Theorem DataSource_hasContentLength_changed_by_assignment_only :
  forall (D : Type) (vt : DataSource.vtable D),
    DataSource.read_keeps_base vt ->
    forall (b : bool) (d : D) (cs : list DataSource.Call),
      DataSource.hasContentLength (DataSource.DataSource (Some b) d) = b
      /\ DataSource.hasContentLength
           (snd (DataSource.calls vt cs (DataSource.DataSource (Some b) d)))
         = DataSource.last_assigned b cs
      /\ (existsb DataSource.is_assignment cs = false ->
          DataSource.hasContentLength
            (snd (DataSource.calls vt cs (DataSource.DataSource (Some b) d)))
          = b
          /\ Forall (DataSource.reports b)
               (fst (DataSource.calls vt cs
                       (DataSource.DataSource (Some b) d)))).
Proof.
  intros D vt Hread b d cs.
  pose proof (DataSourceFacts.calls_hasContentLength_ Hread cs
                (DataSource.DataSource (Some b) d)) as Hflag.
  split; [reflexivity|split; [exact Hflag|]].
  intros Hcs. split.
  - unfold DataSource.hasContentLength. rewrite Hflag.
    now apply DataSourceFacts.last_assigned_without_assignment.
  - exact (DataSourceFacts.calls_report Hread cs
             (DataSource.DataSource (Some b) d) Hcs).
Qed.

Lemma DataSource_hasContentLength_changed_by_assignment_only_witness :
  DataSource.read_keeps_base MemorySource.vt
  /\ existsb DataSource.is_assignment
       [DataSource.call_name; DataSource.call_read 1%N 0%N;
        DataSource.call_hasContentLength; DataSource.call_close;
        DataSource.call_read 1%N 1%N; DataSource.call_size] = false
  /\ DataSource.hasContentLength
       (snd (DataSource.calls MemorySource.vt
               [DataSource.call_name; DataSource.call_read 1%N 0%N;
                DataSource.call_hasContentLength; DataSource.call_close;
                DataSource.call_read 1%N 1%N; DataSource.call_size]
               (DataSource.DataSource (Some false) MemorySource.hi)))
     = false.
Proof.
  assert (Hread : DataSource.read_keeps_base MemorySource.vt)
    by (intros n off self; reflexivity).
  split; [exact Hread|split; [reflexivity|]].
  exact (proj1 (proj2 (proj2
    (DataSource_hasContentLength_changed_by_assignment_only Hread false
       MemorySource.hi
       [DataSource.call_name; DataSource.call_read 1%N 0%N;
        DataSource.call_hasContentLength; DataSource.call_close;
        DataSource.call_read 1%N 1%N; DataSource.call_size])) eq_refl)).
Defined.

(** C10. A [DataSource] constructed without the [hasContentLength] argument
    has [hasContentLength()] equal to true. *)
Theorem DataSource_hasContentLength_default :
  forall (D : Type) (d : D),
    DataSource.hasContentLength (DataSource.DataSource None d) = true.
Proof. intros D d. reflexivity. Qed.

(** ** The forwarding member functions of SinkBase *)

Module TraceFacts.
Import Trace.

Lemma logged_run {S A : Type} (c : Call) (m : M S A) (s : S) (log : list Call) :
  logged c m (s, log) = (fst (m s), (snd (m s), (log ++ [c])%list)).
Proof. unfold logged. simpl. now destruct (m s). Qed.

Lemma unlogged_run {S A : Type} (m : M S A) (s : S) (log : list Call) :
  unlogged m (s, log) = (fst (m s), (snd (m s), log)).
Proof. unfold unlogged. simpl. now destruct (m s). Qed.

Lemma filter_error_calls_app (log : list Call) (c : Call) :
  is_error_call c = false ->
  filter is_error_call (log ++ [c]) = filter is_error_call log.
Proof.
  intros Hc. rewrite filter_app. simpl. rewrite Hc. apply app_nil_r.
Qed.

End TraceFacts.

Module StdVectorFacts.
Section Vector.
Context {T : Type} `{ObjectType T}.

(** The array of a vector holds [size() * sizeof(T)] bytes. *)
Lemma data_length (v : list T) :
  N.of_nat (List.length (StdVector.data v)) = (StdVector.size v * sizeof)%N.
Proof.
  unfold StdVector.data, StdVector.bytes, StdVector.size.
  induction v as [|x v IH]; [reflexivity|].
  change (flat_map object_repr (x :: v))
    with (object_repr x ++ flat_map object_repr v)%list.
  change (List.length (x :: v)) with (Datatypes.S (List.length v)).
  rewrite List.length_app, Nat2N.inj_add, IH, object_repr_length,
    Nat2N.inj_succ.
  lia.
Qed.

(** The product does not wrap around for a vector that fits into the
    address space. *)
Lemma size_in_bytes (v : list T) :
  (N.of_nat (List.length (StdVector.data v)) < size_t_modulus)%N ->
  size_t_mul (StdVector.size v) sizeof
  = N.of_nat (List.length (StdVector.data v)).
Proof.
  intros Hfit. unfold size_t_mul. rewrite <- data_length.
  now apply N.mod_small.
Qed.
End Vector.
End StdVectorFacts.

(** C5. The three forms of [content] call the one primitive
    [content_impl], once, and nothing else: the string form with the
    characters of the string, [size()], [stat] and [needCopy = true]; the
    vector form with the array of the vector, [size() * sizeof(T)], [stat]
    and [needCopy = true]; the pointer form with its four arguments
    unchanged.  Shown on any sink with the calls of its primitives
    written down. *)
Theorem content_forms_forward_to_content_impl :
  forall (S : Type) (k : SinkBase.vtable S) (s : S) (log : list Trace.Call)
         (stat : FileInfo.t),
    (forall data : string,
        let prim :=
          SinkBase.content_impl k (StdString.data data) (StdString.size data)
            stat true s in
        SinkBase.content_string (Trace.traced k) data stat (s, log)
        = (fst prim,
           (snd prim,
            (log ++ [Trace.call_content_impl (StdString.data data)
                       (StdString.size data) stat true])%list))
        /\ firstn (N.to_nat (StdString.size data)) (StdString.data data)
           = StdString.bytes data)
    /\ (forall (T : Type) (OT : ObjectType T) (data : list T),
           let prim :=
             SinkBase.content_impl k (StdVector.data data)
               (size_t_mul (StdVector.size data) sizeof) stat true s in
           SinkBase.content_vector (Trace.traced k) data stat (s, log)
           = (fst prim,
              (snd prim,
               (log ++ [Trace.call_content_impl (StdVector.data data)
                          (size_t_mul (StdVector.size data) sizeof)
                          stat true])%list))
           /\ StdVector.data data = flat_map object_repr data
           /\ N.of_nat (List.length (StdVector.data data))
              = (StdVector.size data * sizeof)%N)
    /\ (forall (data : void_ptr) (size : size_t) (needCopy : bool),
           let prim := SinkBase.content_impl k data size stat needCopy s in
           SinkBase.content (Trace.traced k) data size stat needCopy (s, log)
           = (fst prim,
              (snd prim,
               (log ++ [Trace.call_content_impl data size stat
                          needCopy])%list))).
Proof.
  intros S k s log stat. split; [|split].
  - intros data prim. split.
    + apply TraceFacts.logged_run.
    + apply StdStringFacts.data_prefix.
  - intros T OT data prim. split; [|split].
    + apply TraceFacts.logged_run.
    + reflexivity.
    + apply StdVectorFacts.data_length.
  - intros data size needCopy prim. apply TraceFacts.logged_run.
Qed.

(** C6. The typed [error(e)] and [error(exc)] on an exception pointer both
    call the one primitive [error_impl], once, and nothing else; [error(e)]
    is [error_impl] on [make_exception_ptr(e)], which is also what the
    pointer form does when it is given that pointer. *)
Theorem error_forms_forward_to_error_impl :
  forall (S : Type) (k : SinkBase.vtable S) (s : S) (log : list Trace.Call),
    (forall (T : Type) (e : T),
        let prim := SinkBase.error_impl k (make_exception_ptr e) s in
        SinkBase.error (Trace.traced k) e (s, log)
        = (fst prim,
           (snd prim,
            (log ++ [Trace.call_error_impl (make_exception_ptr e)])%list))
        /\ SinkBase.error k e = SinkBase.error_impl k (make_exception_ptr e)
        /\ SinkBase.error k e = SinkBase.error_ptr k (make_exception_ptr e))
    /\ (forall exc : exception_ptr,
           let prim := SinkBase.error_impl k exc s in
           SinkBase.error_ptr (Trace.traced k) exc (s, log)
           = (fst prim, (snd prim, (log ++ [Trace.call_error_impl exc])%list))
           /\ SinkBase.error_ptr k exc = SinkBase.error_impl k exc).
Proof.
  intros S k s log. split.
  - intros T e prim. split; [|split]; try reflexivity.
    apply TraceFacts.logged_run.
  - intros exc prim. split; [|reflexivity].
    apply TraceFacts.logged_run.
Qed.

(** C7. [seeOther(url)] calls the primitive [seeOther_impl] with that url,
    once, and nothing else: it adds no call of [error_impl] to the calls of
    a sink, and what it does is the same whatever [error_impl] and
    [content_impl] of the sink are. *)
Theorem seeOther_forwards_to_seeOther_impl_only :
  forall (S : Type) (k : SinkBase.vtable S) (s : S) (log : list Trace.Call)
         (url : string),
    (let prim := SinkBase.seeOther_impl k url s in
     SinkBase.seeOther (Trace.traced k) url (s, log)
     = (fst prim, (snd prim, (log ++ [Trace.call_seeOther_impl url])%list)))
    /\ filter Trace.is_error_call
         (snd (snd (SinkBase.seeOther (Trace.traced k) url (s, log))))
       = filter Trace.is_error_call log
    /\ (forall content_impl' error_impl',
           SinkBase.seeOther
             {| SinkBase.content_impl := content_impl';
                SinkBase.error_impl := error_impl';
                SinkBase.seeOther_impl := SinkBase.seeOther_impl k |} url
           = SinkBase.seeOther k url).
Proof.
  intros S k s log url.
  assert (Hrun : SinkBase.seeOther (Trace.traced k) url (s, log)
                 = (fst (SinkBase.seeOther_impl k url s),
                    (snd (SinkBase.seeOther_impl k url s),
                     (log ++ [Trace.call_seeOther_impl url])%list)))
    by apply TraceFacts.logged_run.
  split; [exact Hrun|split].
  - rewrite Hrun. simpl. now apply TraceFacts.filter_error_calls_app.
  - intros c e. reflexivity.
Qed.

(** ** ClientSink::notModified *)

(** C2. On a [ClientSink] that does not override [notModified_impl],
    [notModified()] is [error] on a "not modified" condition: the two calls
    are the same computation, and each of them calls the one primitive
    [error_impl], once, on the exception pointer made of
    [NotModified("Not Modified")]. *)
Theorem notModified_default_is_error_NotModified :
  forall (S : Type) (k : ClientSink.vtable S),
    ClientSink.notModified_impl_override k = None ->
    forall (s : S) (log : list Trace.Call),
      let condition := Error.NotModified_ "Not Modified" in
      let prim :=
        SinkBase.error_impl (ClientSink.base k) (make_exception_ptr condition)
          s in
      ClientSink.notModified k = SinkBase.error (ClientSink.base k) condition
      /\ ClientSink.notModified (Trace.traced_client k) (s, log)
         = (fst prim,
            (snd prim,
             (log ++ [Trace.call_error_impl
                        (make_exception_ptr condition)])%list))
      /\ SinkBase.error (Trace.traced (ClientSink.base k)) condition (s, log)
         = (fst prim,
            (snd prim,
             (log ++ [Trace.call_error_impl
                        (make_exception_ptr condition)])%list)).
Proof.
  intros S k Hdefault s log condition prim.
  split; [|split].
  - unfold ClientSink.notModified, ClientSink.virtual_notModified_impl.
    now rewrite Hdefault.
  - unfold ClientSink.notModified, ClientSink.virtual_notModified_impl.
    simpl. rewrite Hdefault. simpl.
    apply TraceFacts.logged_run.
  - apply TraceFacts.logged_run.
Qed.

Lemma notModified_default_is_error_NotModified_witness :
  ClientSink.notModified_impl_override Exchange.client = None
  /\ ClientSink.notModified (Trace.traced_client Exchange.client)
       (Exchange.fresh, [])
     = (Returned tt,
        ({| Exchange.committed :=
              Some (Exchange.error_response
                      (make_exception_ptr (Error.NotModified_ "Not Modified")));
            Exchange.disconnected := false;
            Exchange.aborter := None |},
         [Trace.call_error_impl
            (make_exception_ptr (Error.NotModified_ "Not Modified"))])).
Proof.
  split; [reflexivity|].
  exact (proj1 (proj2
    (notModified_default_is_error_NotModified Exchange.client eq_refl
       Exchange.fresh []))).
Defined.

(** ** ServerSink::checkAborted *)

(** C3. [checkAborted()] on a sink whose transport has flagged the
    disconnection of the client leaves by the exception [RequestAborted];
    while nothing is flagged it returns normally; either way the state of
    the sink is what it was. *)
Theorem checkAborted_raises_RequestAborted_when_flagged :
  forall (S Source Callback : Type)
         (k : ServerSink.vtable S Source Callback) (s : S),
    (ServerSink.checkAborted_impl k s = true ->
     ServerSink.checkAborted k s
     = (Thrown (make_exception_ptr Error.RequestAborted_), s))
    /\ (ServerSink.checkAborted_impl k s = false ->
        ServerSink.checkAborted k s = (Returned tt, s))
    /\ snd (ServerSink.checkAborted k s) = s.
Proof.
  intros S Source Callback k s.
  unfold ServerSink.checkAborted, const_call.
  split; [|split].
  - intros Hflag. now rewrite Hflag.
  - intros Hflag. now rewrite Hflag.
  - reflexivity.
Qed.

Lemma checkAborted_raises_RequestAborted_when_flagged_witness :
  (ServerSink.checkAborted_impl Exchange.server
     (Exchange.disconnect Exchange.fresh) = true
   /\ ServerSink.checkAborted Exchange.server
        (Exchange.disconnect Exchange.fresh)
      = (Thrown (make_exception_ptr Error.RequestAborted_),
         Exchange.disconnect Exchange.fresh))
  /\ (ServerSink.checkAborted_impl Exchange.server Exchange.fresh = false
      /\ ServerSink.checkAborted Exchange.server Exchange.fresh
         = (Returned tt, Exchange.fresh)).
Proof.
  split; (split; [reflexivity|]).
  - exact (proj1 (checkAborted_raises_RequestAborted_when_flagged
                    Exchange.server (Exchange.disconnect Exchange.fresh))
             eq_refl).
  - exact (proj1 (proj2 (checkAborted_raises_RequestAborted_when_flagged
                           Exchange.server Exchange.fresh))
             eq_refl).
Defined.

(** ** One terminal operation per exchange *)

Module ExchangeFacts.
Import Exchange.

(** Every terminal operation of [SinkBase] commits a response. *)
Lemma invoke_commits (op : Terminal) :
  exists r : Response, invoke sink op = commit r.
Proof. destruct op; simpl; eexists; reflexivity. Qed.

Lemma invoke_committed (op : Terminal) (s : State) (r : Response) :
  committed s = Some r -> invoke sink op s = (rejected, s).
Proof.
  intros Hs. destruct (invoke_commits op) as [r' ->].
  unfold commit. now rewrite Hs.
Qed.

Lemma invoke_uncommitted (op : Terminal) (s : State) :
  committed s = None ->
  fst (invoke sink op s) = Returned tt
  /\ exists r, committed (snd (invoke sink op s)) = Some r.
Proof.
  intros Hs. destruct (invoke_commits op) as [r' ->].
  unfold commit. rewrite Hs. simpl. eauto.
Qed.

Lemma invoke_all_committed (ops : list Terminal) (s : State) (r : Response) :
  committed s = Some r ->
  invoke_all sink ops s = (map (fun _ => rejected) ops, s).
Proof.
  intros Hs. induction ops as [|op ops IH]; simpl; [reflexivity|].
  now rewrite (invoke_committed op s Hs), IH.
Qed.

Lemma invoke_all_uncommitted (op : Terminal) (ops : list Terminal) (s : State) :
  committed s = None ->
  invoke_all sink (op :: ops) s
  = (Returned tt :: map (fun _ => rejected) ops, snd (invoke sink op s)).
Proof.
  intros Hs. simpl.
  destruct (invoke_uncommitted op s Hs) as [Hr [r Hc]].
  destruct (invoke sink op s) as [o s']. simpl in *. subst o.
  now rewrite (invoke_all_committed ops s' Hc).
Qed.

Lemma no_rejected_returned (ops : list Terminal) :
  filter returned (map (fun _ => rejected) ops) = [].
Proof. induction ops; simpl; auto. Qed.

(** A producer that goes on to a second terminal operation leaves by the
    exception of the rejection, with the first response in place. *)
Lemma second_terminal_propagates (op1 op2 : Terminal) :
  bind (invoke sink op1) (fun _ => invoke sink op2) fresh
  = (rejected, snd (invoke sink op1 fresh)).
Proof.
  unfold bind.
  destruct (invoke_uncommitted op1 fresh eq_refl) as [Hr [r Hc]].
  destruct (invoke sink op1 fresh) as [o s']. simpl in *. subst o.
  now apply invoke_committed with r.
Qed.

Example content_string_on_fresh_exchange :
  SinkBase.content_string sink "hi" FileInfo.default fresh
  = (Returned tt,
     {| committed := Some (content_response [x68; x69] FileInfo.default);
        disconnected := false;
        aborter := None |}).
Proof. reflexivity. Qed.

Example content_vector_of_uint32_on_fresh_exchange :
  SinkBase.content_vector sink [UInt32 1; UInt32 258] FileInfo.default fresh
  = (Returned tt,
     {| committed :=
          Some (content_response [x01; x00; x00; x00; x02; x01; x00; x00]
                  FileInfo.default);
        disconnected := false;
        aborter := None |}).
Proof. reflexivity. Qed.

Example error_after_content_is_rejected :
  fst (invoke_all sink
         [terminal_content_string "hi" FileInfo.default;
          terminal_error (Error.NotModified_ "Not Modified");
          terminal_seeOther "/elsewhere"] fresh)
  = [Returned tt; rejected; rejected].
Proof. reflexivity. Qed.

End ExchangeFacts.

(** The public member functions add no way round the primitives: on any
    sink whose primitives keep to the rule of the exchange (once [done]
    holds they fail and [done] stays, and it holds after each of them that
    returns), no sequence of terminal operations has two that return. *)
Module TerminalDiscipline.
Section AnySink.
Context {S : Type} (k : SinkBase.vtable S) (done : S -> bool).

Hypothesis content_impl_rule :
  forall data size stat needCopy,
    keeps_rule done (SinkBase.content_impl k data size stat needCopy).
Hypothesis error_impl_rule :
  forall exc, keeps_rule done (SinkBase.error_impl k exc).
Hypothesis seeOther_impl_rule :
  forall url, keeps_rule done (SinkBase.seeOther_impl k url).

Lemma invoke_rule (op : Terminal) : keeps_rule done (invoke k op).
Proof.
  destruct op;
    first [apply content_impl_rule|apply error_impl_rule
          |apply seeOther_impl_rule].
Qed.

Lemma invoke_all_done (ops : list Terminal) :
  forall s : S,
    done s = true -> filter returned (fst (invoke_all k ops s)) = [].
Proof.
  induction ops as [|op ops IH]; intros s Hs; simpl; [reflexivity|].
  destruct (invoke_rule op s) as [Hdone _]. destruct (Hdone Hs) as [Hr Hs'].
  destruct (invoke k op s) as [r s']. simpl in Hr, Hs'.
  specialize (IH s' Hs'). destruct (invoke_all k ops s') as [rs s''].
  simpl in *. now rewrite Hr.
Qed.

Lemma at_most_one_returns (ops : list Terminal) :
  forall s : S,
    (List.length (filter returned (fst (invoke_all k ops s))) <= 1)%nat.
Proof.
  induction ops as [|op ops IH]; intros s; simpl; [lia|].
  destruct (invoke_rule op s) as [_ Hret].
  destruct (invoke k op s) as [r s'] eqn:Hop. simpl in Hret.
  pose proof (@invoke_all_done ops s') as Hrest. specialize (IH s').
  destruct (invoke_all k ops s') as [rs s'']. simpl in *.
  destruct (returned r); simpl; [|exact IH].
  rewrite (Hrest (Hret eq_refl)). simpl. lia.
Qed.
End AnySink.

(** The sink of an exchange keeps the rule. *)
Lemma commit_keeps_rule (r : Exchange.Response) :
  keeps_rule Exchange.done (Exchange.commit r).
Proof.
  intros s. unfold Exchange.done, Exchange.commit.
  destruct (Exchange.committed s) eqn:Hs; simpl; rewrite ?Hs; split;
    intros; try split; try reflexivity; try discriminate.
Qed.

Lemma exchange_at_most_one_returns (ops : list Terminal) (s : Exchange.State) :
  (List.length (filter returned (fst (invoke_all Exchange.sink ops s)))
   <= 1)%nat.
Proof.
  apply at_most_one_returns with (done := Exchange.done);
    intros; apply commit_keeps_rule.
Qed.

End TerminalDiscipline.

(** C4. On the sink of one exchange at most one terminal operation among
    the forms of [content], of [error] and [seeOther] succeeds: of any
    sequence of them on a fresh sink the first returns normally and every
    later one is rejected by the implementation and leaves the committed
    response as it is; from any state of the sink, no more than one of them
    returns normally. *)
Theorem one_terminal_operation_per_exchange :
  forall (op : Terminal) (ops : list Terminal) (s : Exchange.State),
    fst (invoke_all Exchange.sink (op :: ops) Exchange.fresh)
    = Returned tt
      :: map (fun _ => Thrown (make_exception_ptr Exchange.AlreadyCommitted_))
           ops
    /\ snd (invoke_all Exchange.sink (op :: ops) Exchange.fresh)
       = snd (invoke Exchange.sink op Exchange.fresh)
    /\ (List.length
          (filter returned (fst (invoke_all Exchange.sink (op :: ops) s)))
        <= 1)%nat.
Proof.
  intros op ops s.
  rewrite (ExchangeFacts.invoke_all_uncommitted op ops Exchange.fresh eq_refl).
  split; [reflexivity|split; [reflexivity|]].
  destruct (Exchange.committed s) as [r|] eqn:Hs.
  - rewrite (ExchangeFacts.invoke_all_committed (op :: ops) s Hs).
    cbn [fst]. rewrite (ExchangeFacts.no_rejected_returned (op :: ops)).
    simpl. lia.
  - rewrite (ExchangeFacts.invoke_all_uncommitted op ops s Hs).
    cbn [fst filter returned].
    rewrite (ExchangeFacts.no_rejected_returned ops). simpl. lia.
Qed.

(** * Further properties *)

(** ** [operator<] of ListingItem as an order *)

(** X1. [operator<] is a strict order that leaves no two different items
    unordered: no item is smaller than itself, two items are never each
    smaller than the other, and of two items that are not the same item
    (same name and same kind) one is smaller than the other. *)
Theorem ListingItem_lt_strict_and_total :
  forall a b : ListingItem.t,
    ListingItem.lt a a = false
    /\ ListingItem.lt a b && ListingItem.lt b a = false
    /\ (a = b \/ ListingItem.lt a b = true \/ ListingItem.lt b a = true).
Proof.
  intros a b. split; [apply ListingItemFacts.item_lt_irrefl|split].
  - destruct (ListingItem.lt a b) eqn:Hab; [simpl|reflexivity].
    now apply ListingItemFacts.item_lt_asym.
  - destruct (ListingItem.lt a b) eqn:Hab; [now right; left|].
    destruct (ListingItem.lt b a) eqn:Hba; [now right; right|].
    left. now apply ListingItemFacts.item_lt_connected.
Qed.

(** X2. [operator<] is transitive, across the kinds and within them. *)
Theorem ListingItem_lt_transitive :
  forall a b c : ListingItem.t,
    ListingItem.lt a b = true -> ListingItem.lt b c = true ->
    ListingItem.lt a c = true.
Proof. intros a b c. apply ListingItemFacts.item_lt_trans. Qed.

Lemma ListingItem_lt_transitive_witness :
  ListingItem.lt (ListingItem.Build "z" ListingItem.dir)
                 (ListingItem.Build "a" ListingItem.file) = true
  /\ ListingItem.lt (ListingItem.Build "a" ListingItem.file)
                    (ListingItem.Build "b" ListingItem.file) = true
  /\ ListingItem.lt (ListingItem.Build "z" ListingItem.dir)
                    (ListingItem.Build "b" ListingItem.file) = true.
Proof.
  split; [reflexivity|split; [reflexivity|]].
  apply (ListingItem_lt_transitive
           (ListingItem.Build "z" ListingItem.dir)
           (ListingItem.Build "a" ListingItem.file)
           (ListingItem.Build "b" ListingItem.file)); reflexivity.
Defined.

(** X3. Sorting by [operator<] has one result only: two arrangements of
    the items of a listing, repeated items included, that are both ordered
    are the same arrangement, so the outcome depends neither on the order
    the caller gave nor on the sorting algorithm. *)
Theorem ordered_arrangement_unique :
  forall l l1 l2 : Listing,
    Permutation l l1 -> Permutation l l2 ->
    ListingOrder.ordered l1 -> ListingOrder.ordered l2 ->
    l1 = l2.
Proof.
  intros l l1 l2 H1 H2 O1 O2.
  apply ListingOrderFacts.ordered_unique; [|exact O1|exact O2].
  apply Permutation_trans with l; [now apply Permutation_sym|exact H2].
Qed.

Lemma ordered_arrangement_unique_witness :
  Permutation ListingOrder.example_input ListingOrder.example_output
  /\ Permutation ListingOrder.example_input
       (ListingOrder.sort ListingOrder.example_input)
  /\ ListingOrder.ordered ListingOrder.example_output
  /\ ListingOrder.ordered (ListingOrder.sort ListingOrder.example_input)
  /\ ListingOrder.example_output
     = ListingOrder.sort ListingOrder.example_input.
Proof.
  assert (HP : Permutation ListingOrder.example_input
                 ListingOrder.example_output)
    by (vm_compute; apply Permutation_cons_append).
  assert (HP' : Permutation ListingOrder.example_input
                  (ListingOrder.sort ListingOrder.example_input))
    by (vm_compute; apply Permutation_cons_append).
  assert (HO : ListingOrder.ordered ListingOrder.example_output)
    by (vm_compute; repeat constructor).
  assert (HO' : ListingOrder.ordered
                  (ListingOrder.sort ListingOrder.example_input))
    by (vm_compute; repeat constructor).
  repeat (split; [assumption|]).
  exact (ordered_arrangement_unique HP HP' HO HO').
Defined.

Module ListingPartsFacts.
Import ListingParts.

Lemma dir_or_file (x : ListingItem.t) : is_file x = negb (is_dir x).
Proof. unfold is_file, is_dir. now destruct (ListingItem.type x). Qed.

(** Nothing that is not smaller than a file is a directory. *)
Lemma not_below_file (x y : ListingItem.t) :
  is_file x = true -> ListingItem.lt y x = false -> is_file y = true.
Proof.
  unfold is_file, ListingItem.lt.
  destruct x as [n [|]], y as [m [|]]; simpl; congruence.
Qed.

(** Between items of one kind [operator<] is [<] on the names. *)
Lemma same_kind_lt (x y : ListingItem.t) :
  ListingItem.type x = ListingItem.type y ->
  ListingItem.lt x y = StdString.lt (ListingItem.name x) (ListingItem.name y).
Proof.
  unfold ListingItem.lt. destruct x as [n [|]], y as [m [|]]; simpl;
    congruence.
Qed.

Lemma filter_all (p : ListingItem.t -> bool) (l : Listing) :
  Forall (fun x => p x = true) l -> filter p l = l.
Proof.
  induction 1 as [|x l Hx _ IH]; simpl; [reflexivity|].
  now rewrite Hx, IH.
Qed.

Lemma filter_none (p : ListingItem.t -> bool) (l : Listing) :
  Forall (fun x => p x = false) l -> filter p l = [].
Proof.
  induction 1 as [|x l Hx _ IH]; simpl; [reflexivity|].
  now rewrite Hx, IH.
Qed.

(** The items of one kind of an ordered listing are in the order of their
    names. *)
Lemma filter_kind_ascending (p : ListingItem.t -> bool) (l : Listing) :
  (forall x y, p x = true -> p y = true ->
               ListingItem.type x = ListingItem.type y) ->
  ListingOrder.ordered l -> names_ascending (filter p l).
Proof.
  intros Hkind. unfold ListingOrder.ordered, names_ascending.
  induction 1 as [|x l Hl IH Hx]; simpl; [constructor|].
  destruct (p x) eqn:Hpx; [|exact IH].
  constructor; [exact IH|].
  rewrite Forall_forall in *. intros y Hy.
  apply filter_In in Hy. destruct Hy as [Hy Hpy].
  rewrite <- (same_kind_lt y x (Hkind y x Hpy Hpx)). now apply Hx.
Qed.

Lemma string_lt_extension (n : string) (c : ascii) (m : string) :
  StdString.lt n (n ++ String c m) = true.
Proof.
  unfold StdString.lt, String.ltb.
  induction n as [|a n IH]; simpl; [reflexivity|].
  now rewrite StdStringFacts.ascii_compare_refl.
Qed.

End ListingPartsFacts.

(** X4. In a listing that is ordered by [operator<] the directories come
    first and the files after them, nothing in between, and the names of the
    directories as well as those of the files are in ascending order. *)
Theorem ordered_listing_dirs_then_files :
  forall l : Listing,
    ListingOrder.ordered l ->
    l = (filter ListingParts.is_dir l ++ filter ListingParts.is_file l)%list
    /\ ListingParts.names_ascending (filter ListingParts.is_dir l)
    /\ ListingParts.names_ascending (filter ListingParts.is_file l).
Proof.
  intros l Hl. split; [|split].
  - unfold ListingOrder.ordered in Hl.
    induction Hl as [|x l Hl IH Hx]; [reflexivity|].
    simpl. rewrite (ListingPartsFacts.dir_or_file x).
    destruct (ListingParts.is_dir x) eqn:Hdx; simpl.
    + now rewrite <- IH.
    + assert (Hfiles : Forall (fun y => ListingParts.is_file y = true) l).
      { apply (Forall_impl _ (P := fun y => ListingItem.lt y x = false));
          [|exact Hx].
        intros y. apply ListingPartsFacts.not_below_file.
        now rewrite ListingPartsFacts.dir_or_file, Hdx. }
      rewrite (ListingPartsFacts.filter_all _ Hfiles).
      rewrite ListingPartsFacts.filter_none; [reflexivity|].
      apply (Forall_impl _ (P := fun y => ListingParts.is_file y = true));
        [|exact Hfiles].
      intros y. rewrite ListingPartsFacts.dir_or_file.
      now destruct (ListingParts.is_dir y).
  - apply ListingPartsFacts.filter_kind_ascending; [|exact Hl].
    unfold ListingParts.is_dir. intros x y.
    destruct (ListingItem.type x), (ListingItem.type y); congruence.
  - apply ListingPartsFacts.filter_kind_ascending; [|exact Hl].
    unfold ListingParts.is_file. intros x y.
    destruct (ListingItem.type x), (ListingItem.type y); congruence.
Qed.

Lemma ordered_listing_dirs_then_files_witness :
  ListingOrder.ordered ListingOrder.example_output
  /\ ListingOrder.example_output
     = ([ ListingItem.Build "a" ListingItem.dir;
          ListingItem.Build "z" ListingItem.dir ]
        ++ [ ListingItem.Build "a" ListingItem.file;
             ListingItem.Build "b" ListingItem.file ])%list.
Proof.
  assert (HO : ListingOrder.ordered ListingOrder.example_output)
    by (vm_compute; repeat constructor).
  split; [exact HO|].
  exact (proj1 (ordered_listing_dirs_then_files HO)).
Defined.

(** X5. The item the constructor makes without arguments, a file with the
    empty name, stands between the directories and the other files: exactly
    the directories are smaller than it, and it is smaller than exactly the
    files that have a name. *)
Theorem default_ListingItem_position :
  forall x : ListingItem.t,
    ListingItem.lt x (ListingItem.ListingItem None None)
    = ListingParts.is_dir x
    /\ ListingItem.lt (ListingItem.ListingItem None None) x
       = ListingParts.is_file x && negb (String.eqb (ListingItem.name x) "").
Proof.
  intros [n [|]]; unfold ListingItem.lt, ListingParts.is_dir,
    ListingParts.is_file; simpl; split; try reflexivity.
  - apply (proj1 StdStringFacts.string_lt_lexicographic).
  - now destruct n.
Qed.

(** X6. Within a kind a name comes before every name it is a proper
    prefix of. *)
Theorem ListingItem_prefix_name_first :
  forall (k : ListingItem.Type_) (n : string) (c : ascii) (m : string),
    ListingItem.lt (ListingItem.Build n k)
                   (ListingItem.Build (n ++ String c m) k) = true
    /\ ListingItem.lt (ListingItem.Build (n ++ String c m) k)
                      (ListingItem.Build n k) = false.
Proof.
  intros k n c m.
  assert (H : ListingItem.lt (ListingItem.Build n k)
                (ListingItem.Build (n ++ String c m) k) = true).
  { rewrite ListingPartsFacts.same_kind_lt by reflexivity.
    apply ListingPartsFacts.string_lt_extension. }
  split; [exact H|]. now apply ListingItemFacts.item_lt_asym.
Qed.

(** ** The bytes handed to [content_impl] *)

Module DeliveryFacts.

Lemma bytes_of_chars (v : list byte) : StdVector.bytes v = v.
Proof.
  induction v as [|c v IH]; [reflexivity|].
  change (StdVector.bytes (c :: v)) with (c :: StdVector.bytes v).
  now rewrite IH.
Qed.

(** What the vector form announces when the product does not wrap. *)
Lemma vector_delivery {T : Type} `{ObjectType T} (data : list T)
    (stat : FileInfo.t) {S : Type} (k : SinkBase.vtable S) (s : S) :
  (N.of_nat (List.length (StdVector.data data)) < size_t_modulus)%N ->
  map Primitive.delivery
    (snd (snd (SinkBase.content_vector (Trace.traced k) data stat (s, []))))
  = [Some (StdVector.bytes data, stat, true)].
Proof.
  intros Hfit.
  unfold SinkBase.content_vector. simpl. rewrite TraceFacts.logged_run.
  simpl. rewrite (StdVectorFacts.size_in_bytes data Hfit), Nat2N.id.
  unfold StdVector.data. now rewrite firstn_all.
Qed.

Lemma string_size_of_bytes (s : string) :
  StdVector.size (StdString.bytes s) = StdString.size s.
Proof. unfold StdVector.size. now rewrite StdStringFacts.size_length. Qed.

End DeliveryFacts.

(** X9. For a vector whose array fits into the address space, the vector
    form of [content] announces to [content_impl] exactly the number of bytes
    the array holds, so that the bytes to send are the object
    representations of all the elements, with [needCopy] set. *)
Theorem content_vector_delivers_all_elements :
  forall (T : Type) (OT : ObjectType T) (data : list T) (stat : FileInfo.t)
         (S : Type) (k : SinkBase.vtable S) (s : S),
    (N.of_nat (List.length (StdVector.data data)) < size_t_modulus)%N ->
    map Primitive.delivery
      (snd (snd (SinkBase.content_vector (Trace.traced k) data stat (s, []))))
    = [Some (StdVector.bytes data, stat, true)].
Proof.
  intros T OT data stat S k s Hfit.
  now apply DeliveryFacts.vector_delivery.
Qed.

Lemma content_vector_delivers_all_elements_witness :
  (N.of_nat (List.length (StdVector.data [UInt32 1; UInt32 258]))
   < size_t_modulus)%N
  /\ map Primitive.delivery
       (snd (snd (SinkBase.content_vector (Trace.traced Exchange.sink)
                    [UInt32 1; UInt32 258] FileInfo.default
                    (Exchange.fresh, []))))
     = [Some ([x01; x00; x00; x00; x02; x01; x00; x00], FileInfo.default,
              true)].
Proof.
  assert (Hfit : (N.of_nat (List.length
                    (StdVector.data [UInt32 1; UInt32 258]))
                  < size_t_modulus)%N) by reflexivity.
  split; [exact Hfit|].
  exact (content_vector_delivers_all_elements ObjectType_uint32_t
           [UInt32 1; UInt32 258] FileInfo.default Exchange.sink
           Exchange.fresh Hfit).
Defined.

(** X10. The string form of [content] and the vector form on the
    characters of the same string ask [content_impl] for the same thing: the
    characters of the string, without the terminating zero, with the same
    [stat] and with [needCopy] set. *)
Theorem content_string_and_vector_of_char_agree :
  forall (data : string) (stat : FileInfo.t) (S : Type)
         (k : SinkBase.vtable S) (s : S),
    (StdString.size data < size_t_modulus)%N ->
    map Primitive.delivery
      (snd (snd (SinkBase.content_string (Trace.traced k) data stat (s, []))))
    = [Some (StdString.bytes data, stat, true)]
    /\ map Primitive.delivery
         (snd (snd (SinkBase.content_vector (Trace.traced k)
                      (StdString.bytes data) stat (s, []))))
       = [Some (StdString.bytes data, stat, true)].
Proof.
  intros data stat S k s Hfit. split.
  - unfold SinkBase.content_string. simpl. rewrite TraceFacts.logged_run.
    simpl. now rewrite StdStringFacts.data_prefix.
  - rewrite DeliveryFacts.vector_delivery.
    + now rewrite DeliveryFacts.bytes_of_chars.
    + unfold StdVector.data. rewrite DeliveryFacts.bytes_of_chars.
      now rewrite <- StdStringFacts.size_length.
Qed.

Lemma content_string_and_vector_of_char_agree_witness :
  (StdString.size "hi" < size_t_modulus)%N
  /\ map Primitive.delivery
       (snd (snd (SinkBase.content_string (Trace.traced Exchange.sink) "hi"
                    FileInfo.default (Exchange.fresh, []))))
     = [Some ([x68; x69], FileInfo.default, true)]
  /\ map Primitive.delivery
       (snd (snd (SinkBase.content_vector (Trace.traced Exchange.sink)
                    [x68; x69] FileInfo.default (Exchange.fresh, []))))
     = [Some ([x68; x69], FileInfo.default, true)].
Proof.
  assert (Hfit : (StdString.size "hi" < size_t_modulus)%N) by reflexivity.
  split; [exact Hfit|].
  exact (content_string_and_vector_of_char_agree "hi" FileInfo.default
           Exchange.sink Exchange.fresh Hfit).
Defined.

(** ** The rule of one response, through the public members *)

(** X12. The public members of [SinkBase] give no way round the
    primitives: on a sink whose three primitives keep the rule of one
    response (with a response given they fail and it stays given, and it is
    given after each of them that returns), of any sequence of calls of the
    forms of [content], the forms of [error] and [seeOther], from any state,
    at most one returns normally. *)
Theorem one_response_rule_holds_for_public_members :
  forall (S : Type) (k : SinkBase.vtable S) (done : S -> bool),
    (forall data size stat needCopy,
        keeps_rule done (SinkBase.content_impl k data size stat needCopy)) ->
    (forall exc, keeps_rule done (SinkBase.error_impl k exc)) ->
    (forall url, keeps_rule done (SinkBase.seeOther_impl k url)) ->
    forall (ops : list Terminal) (s : S),
      (List.length (filter returned (fst (invoke_all k ops s))) <= 1)%nat.
Proof.
  intros S k done Hcontent Herror HseeOther ops s.
  now apply TerminalDiscipline.at_most_one_returns with (done := done).
Qed.

Lemma one_response_rule_holds_for_public_members_witness :
  (forall data size stat needCopy,
      keeps_rule Exchange.done
        (SinkBase.content_impl Exchange.sink data size stat needCopy))
  /\ (forall exc,
         keeps_rule Exchange.done (SinkBase.error_impl Exchange.sink exc))
  /\ (forall url,
         keeps_rule Exchange.done (SinkBase.seeOther_impl Exchange.sink url))
  /\ (List.length
        (filter returned
           (fst (invoke_all Exchange.sink
                   [terminal_seeOther "/elsewhere";
                    terminal_content_string "hi" FileInfo.default;
                    terminal_error (Error.NotModified_ "Not Modified")]
                   Exchange.fresh)))
      <= 1)%nat.
Proof.
  assert (H1 : forall data size stat needCopy,
             keeps_rule Exchange.done
               (SinkBase.content_impl Exchange.sink data size stat needCopy))
    by (intros; apply TerminalDiscipline.commit_keeps_rule).
  assert (H2 : forall exc,
             keeps_rule Exchange.done (SinkBase.error_impl Exchange.sink exc))
    by (intros; apply TerminalDiscipline.commit_keeps_rule).
  assert (H3 : forall url,
             keeps_rule Exchange.done
               (SinkBase.seeOther_impl Exchange.sink url))
    by (intros; apply TerminalDiscipline.commit_keeps_rule).
  split; [exact H1|split; [exact H2|split; [exact H3|]]].
  exact (@one_response_rule_holds_for_public_members
           Exchange.State Exchange.sink Exchange.done H1 H2 H3
           [terminal_seeOther "/elsewhere";
            terminal_content_string "hi" FileInfo.default;
            terminal_error (Error.NotModified_ "Not Modified")]
           Exchange.fresh).
Defined.
